(** * users/views.py: the annotated user read queries

    A shallow embedding of the two read paths of [users/views.py],
    [UserMeViewSet.get_object] and [UserViewSet.get_queryset], together
    with the part of the ORM they rely on: left outer joins over the
    related tables, [filter], grouping by primary key, the aggregates
    [Count] and [Count(distinct=True)], the conditional expression
    [Case]/[When], ordering by primary key and [first]. *)

From Stdlib Require Import String List ZArith Lia Bool Permutation.
Import ListNotations.
Local Open Scope string_scope.
Local Open Scope list_scope.
Local Open Scope Z_scope.

(** ** Conditional expressions: [Case], [When], field lookups *)

Module Expr.

(** The two field lookups the views use on the annotated count:
    [vps_count__range=[lo, hi]] compiles to [BETWEEN lo AND hi], both
    ends included, and [vps_count__gte=v] to [>= v]. *)
Inductive Lookup : Type :=
| range (lo hi : Z)
| gte (v : Z).

Definition holds (l : Lookup) (n : Z) : bool :=
  match l with
  | range lo hi => (lo <=? n) && (n <=? hi)
  | gte v => v <=? n
  end.

(** [When(cond, then=Value(s, output_field=CharField()))]. *)
Record When : Type := mkWhen { condition : Lookup; result : string }.

(** [Case(when_1, ..., when_k, default=d)]: the whens are tried in the order they
    are written and the first one whose condition holds gives the
    value; without a match the value is the default, and [None] (SQL
    NULL) when no default is given. *)
Fixpoint Case (cases : list When) (default : option string) (n : Z)
  : option string :=
  match cases with
  | [] => default
  | w :: ws => if holds (condition w) n then Some (result w)
               else Case ws default n
  end.

End Expr.

Import Expr.

(** The [workload] expression of [UserMeViewSet.get_object]. *)
Definition workload_me : Z -> option string :=
  Case [ mkWhen (range 1 3) "EASY";
         mkWhen (range 3 8) "MEDIUM";
         mkWhen (gte 9) "HARD" ]
       (Some "VERY_EASY").

(** The [workload] expression of [UserViewSet.get_queryset]. *)
Definition workload_list : Z -> option string :=
  Case [ mkWhen (range 1 3) "EASY";
         mkWhen (range 3 8) "MEDIUM";
         mkWhen (gte 9) "HARD" ]
       (Some "VERY_EASY").

(** The four workload tiers. *)
Definition labels : list string := ["VERY_EASY"; "EASY"; "MEDIUM"; "HARD"].

(** The rule table of the specification, as ordered (predicate, label)
    pairs read first-match-wins; the last row is the catch-all. *)
Definition spec_rules : list ((Z -> bool) * string) :=
  [ (fun n => (1 <=? n) && (n <=? 3), "EASY");
    (fun n => (3 <=? n) && (n <=? 8), "MEDIUM");
    (fun n => 9 <=? n,                "HARD");
    (fun _ => true,                   "VERY_EASY") ].

Fixpoint first_match (rules : list ((Z -> bool) * string)) (n : Z)
  : option string :=
  match rules with
  | [] => None
  | (p, l) :: rs => if p n then Some l else first_match rs n
  end.

Definition spec_classify (n : Z) : option string := first_match spec_rules n.

(** ** The stored data *)

Module Models.

(** Modelled from the spec: [users.models] is not among the sources at
    hand. A user is an identity record with a primary key; it has one
    associated profile record, zero or more virtual-resource ([vps])
    records and zero or more application records, and each related
    record names the user it belongs to. *)
Record User : Type := mkUser { user_id : Z; email : string }.

Record Profile : Type := mkProfile { profile_id : Z; profile_user_id : Z }.

Record Vps : Type := mkVps { vps_id : Z; vps_user_id : Z }.

Record Application : Type :=
  mkApplication { application_id : Z; application_user_id : Z }.

(** The database: one table per model, rows in storage order. *)
Record DB : Type := mkDB {
  users : list User;
  profiles : list Profile;
  vpss : list Vps;
  applications : list Application
}.

(** Primary keys are unique within each table. *)
Definition well_formed (db : DB) : Prop :=
  NoDup (map user_id (users db)) /\
  NoDup (map vps_id (vpss db)) /\
  NoDup (map application_id (applications db)).

End Models.

Import Models.

(** ** Database access as explicit state passing *)

Module ORM.

(** A database action receives the database and returns its result
    with the database it leaves behind. *)
Definition M (A : Type) : Type := DB -> A * DB.

Definition ret {A} (a : A) : M A := fun db => (a, db).

Definition bind {A B} (c : M A) (k : A -> M B) : M B :=
  fun db => let (a, db') := c db in k a db'.

(** A [SELECT] statement: computes its answer from the tables. *)
Definition select {A} (q : DB -> A) : M A := fun db => (q db, db).

Definition result {A} (c : M A) (db : DB) : A := fst (c db).
Definition final {A} (c : M A) (db : DB) : DB := snd (c db).

End ORM.

Notation "x <- c ;; k" := (ORM.bind c (fun x => k))
  (at level 61, c at next level, right associativity).

(** ** The relational operators the queries compile to *)

Module Sql.

(** [l LEFT OUTER JOIN r ON on]: every row of [l] paired with each
    matching row of [r], or once with NULL when none matches. *)
Definition left_outer_join {A B} (on : A -> B -> bool)
           (l : list A) (r : list B) : list (A * option B) :=
  flat_map (fun a => match filter (on a) r with
                     | [] => [(a, None)]
                     | bs => map (fun b => (a, Some b)) bs
                     end) l.

(** The non-NULL values of a column. *)
Definition non_null {A} (col : list (option A)) : list A :=
  flat_map (fun o => match o with Some a => [a] | None => [] end) col.

(** [COUNT(col)]: the number of rows whose value is not NULL. *)
Definition count {A} (col : list (option A)) : Z :=
  Z.of_nat (length (non_null col)).

(** [COUNT(DISTINCT col)]: the number of different non-NULL values. *)
Definition count_distinct (col : list (option Z)) : Z :=
  Z.of_nat (length (nodup Z.eq_dec (non_null col))).

(** [GROUP BY key]: one group per key value, holding the rows with it. *)
Definition group_by {R} (key : R -> Z) (rows : list R) : list (list R) :=
  map (fun k => filter (fun r => key r =? k) rows)
      (nodup Z.eq_dec (map key rows)).

(** [ORDER BY key ASC], as a stable insertion sort. *)
Fixpoint insert_by {R} (key : R -> Z) (x : R) (l : list R) : list R :=
  match l with
  | [] => [x]
  | y :: l' => if key x <=? key y then x :: l
               else y :: insert_by key x l'
  end.

Fixpoint order_by {R} (key : R -> Z) (l : list R) : list R :=
  match l with
  | [] => []
  | x :: l' => insert_by key x (order_by key l')
  end.

(** [LIMIT n]. *)
Definition limit {R} (n : nat) (l : list R) : list R := firstn n l.

End Sql.

Import Sql.

(** ** The views *)

(** A row of [users LEFT OUTER JOIN vps LEFT OUTER JOIN application]. *)
Definition JoinRow : Type := (User * option Vps) * option Application.

Definition j_user (r : JoinRow) : User := fst (fst r).
Definition j_vps (r : JoinRow) : option Vps := snd (fst r).
Definition j_application (r : JoinRow) : option Application := snd r.

(** A [User] instance as the annotated querysets hand it out: the stored
    record, the profile fetched by [select_related], the applications
    fetched by [prefetch_related] and the three annotations. *)
Record AnnotatedUser : Type := mkAnnotatedUser {
  user : User;
  profile : option Profile;
  application_set : list Application;
  vps_count : Z;
  workload : option string;
  applications_deployed : Z
}.

(** The tables the annotations reach through the relations ["vps"] and
    ["application"], joined to the user table in the order the
    annotations name them. *)
Definition joined (db : DB) : list JoinRow :=
  left_outer_join
    (fun (r : User * option Vps) a => application_user_id a =? user_id (fst r))
    (left_outer_join (fun u v => vps_user_id v =? user_id u)
                     (users db) (vpss db))
    (applications db).

(** [select_related("profile")]: the one profile row of the user. *)
Definition select_related_profile (db : DB) (u : User) : option Profile :=
  find (fun p => profile_user_id p =? user_id u) (profiles db).

(** The annotations of one group of joined rows:
    [vps_count=Count("vps")], [workload=Case(...)] over that count and
    [applications_deployed=Count("application", distinct=True)]. The
    stored columns are those of the group's user. *)
Definition annotate (case : Z -> option string) (db : DB)
           (group : list JoinRow) : list AnnotatedUser :=
  match group with
  | [] => []
  | r :: _ =>
      let n := count (map (fun r => option_map vps_id (j_vps r)) group) in
      [ {| user := j_user r;
           profile := select_related_profile db (j_user r);
           application_set := [];
           vps_count := n;
           workload := case n;
           applications_deployed :=
             count_distinct
               (map (fun r => option_map application_id (j_application r))
                    group) |} ]
  end.

(** The annotated [SELECT]: join, [WHERE], [GROUP BY] the user's primary
    key, aggregate. *)
Definition annotated_query (where_ : User -> bool)
           (case : Z -> option string) (db : DB) : list AnnotatedUser :=
  flat_map (annotate case db)
           (group_by (fun r => user_id (j_user r))
                     (filter (fun r => where_ (j_user r)) (joined db))).

(** [prefetch_related("application_set")]: one more [SELECT] for the
    applications of the users fetched, attached to each of them. *)
Definition prefetch_application_set (objs : list AnnotatedUser)
  : ORM.M (list AnnotatedUser) :=
  apps <- ORM.select (fun db =>
            filter (fun a => existsb (fun o => application_user_id a
                                               =? user_id (user o)) objs)
                   (applications db)) ;;
  ORM.ret
    (map (fun o =>
            {| user := user o;
               profile := profile o;
               application_set :=
                 filter (fun a => application_user_id a =? user_id (user o))
                        apps;
               vps_count := vps_count o;
               workload := workload o;
               applications_deployed := applications_deployed o |})
         objs).

(** An authenticated request: [request.user.id]. *)
Record Request : Type := mkRequest { request_user_id : Z }.

(** [UserMeViewSet.get_object]: the annotated queryset filtered on the
    requesting user's id; [first()] orders it by primary key, fetches at
    most one row and returns it, or [None]. *)
Definition get_object (request : Request) : ORM.M (option AnnotatedUser) :=
  rows <- ORM.select (fun db =>
            limit 1
              (order_by (fun o => user_id (user o))
                 (annotated_query
                    (fun u => user_id u =? request_user_id request)
                    workload_me db))) ;;
  objs <- prefetch_application_set rows ;;
  ORM.ret (hd_error objs).

(** [UserViewSet.get_queryset], evaluated: every user, annotated. *)
Definition get_queryset : ORM.M (list AnnotatedUser) :=
  rows <- ORM.select (annotated_query (fun _ => true) workload_list) ;;
  prefetch_application_set rows.

(** ** What the database holds for a user *)

(** The vps records and the application records associated with a user,
    read off the tables directly. *)
Definition vps_of (db : DB) (u : User) : list Vps :=
  filter (fun v => vps_user_id v =? user_id u) (vpss db).

Definition applications_of (db : DB) (u : User) : list Application :=
  filter (fun a => application_user_id a =? user_id u) (applications db).

(** The joined rows of a single user. *)
Definition rows_of (db : DB) (u : User) : list JoinRow :=
  left_outer_join
    (fun (r : User * option Vps) a => application_user_id a =? user_id (fst r))
    (left_outer_join (fun u v => vps_user_id v =? user_id u) [u] (vpss db))
    (applications db).

(** The two sides of a user's joined rows: the user paired with each of
    its vps records (or once with NULL), and such a pair paired with each
    of the user's applications (or once with NULL). *)
Definition vps_side (db : DB) (u : User) : list (User * option Vps) :=
  match vps_of db u with
  | [] => [(u, None)]
  | vs => map (fun v => (u, Some v)) vs
  end.

Definition application_side (db : DB) (u : User) (x : User * option Vps)
  : list JoinRow :=
  match applications_of db u with
  | [] => [(x, None)]
  | bs => map (fun b => (x, Some b)) bs
  end.

(** Two instances carry the same stored record and annotations. *)
Definition agree (o o' : AnnotatedUser) : Prop :=
  user o = user o' /\ profile o = profile o' /\
  vps_count o = vps_count o' /\ workload o = workload o' /\
  applications_deployed o = applications_deployed o'.

(** The key the annotated query groups on. *)
Definition pk (r : JoinRow) : Z := user_id (j_user r).

(** The annotated row of a stored user, before the prefetch. *)
Definition annotated_row (case : Z -> option string) (db : DB) (u : User)
  : AnnotatedUser :=
  let n := count (map (fun r => option_map vps_id (j_vps r)) (rows_of db u)) in
  {| user := u;
     profile := select_related_profile db u;
     application_set := [];
     vps_count := n;
     workload := case n;
     applications_deployed :=
       count_distinct
         (map (fun r => option_map application_id (j_application r))
              (rows_of db u)) |}.

(** An instance one of the two read paths hands out from a database. *)
Definition served (db : DB) (o : AnnotatedUser) : Prop :=
  In o (ORM.result get_queryset db) \/
  exists request, ORM.result (get_object request) db = Some o.

(** ** The instances in terms of the tables *)

(** An instance after [prefetch_related("application_set")]: its
    applications are those of its user. *)
Definition with_applications (db : DB) (o : AnnotatedUser) : AnnotatedUser :=
  {| user := user o;
     profile := profile o;
     application_set := applications_of db (user o);
     vps_count := vps_count o;
     workload := workload o;
     applications_deployed := applications_deployed o |}.

(** The instance of a stored user written out from the tables: the count
    annotation is the number of the user's vps records taken once per
    application of the user (once when there is none). *)
Definition instance_of (db : DB) (u : User) : AnnotatedUser :=
  let n := Z.of_nat (length (vps_of db u) *
                     Nat.max 1 (length (applications_of db u))) in
  {| user := u;
     profile := select_related_profile db u;
     application_set := applications_of db u;
     vps_count := n;
     workload := workload_me n;
     applications_deployed := Z.of_nat (length (applications_of db u)) |}.

(** ** Variants of the workload expression *)

(** The expression with the overlap at 3 removed from its second when. *)
Definition workload_disjoint : Z -> option string :=
  Case [ mkWhen (range 1 3) "EASY";
         mkWhen (range 4 8) "MEDIUM";
         mkWhen (gte 9) "HARD" ]
       (Some "VERY_EASY").

(** The expression with its first two whens exchanged. *)
Definition workload_swapped : Z -> option string :=
  Case [ mkWhen (range 3 8) "MEDIUM";
         mkWhen (range 1 3) "EASY";
         mkWhen (gte 9) "HARD" ]
       (Some "VERY_EASY").

(** The position of a label among the tiers, lightest first; -1 for
    anything that is not a tier. *)
Definition tier_rank (l : option string) : Z :=
  match l with
  | Some s =>
      if String.eqb s "VERY_EASY" then 0
      else if String.eqb s "EASY" then 1
      else if String.eqb s "MEDIUM" then 2
      else if String.eqb s "HARD" then 3
      else -1
  | None => -1
  end.

(** ** Sample databases *)

Definition alice : User := mkUser 1 "alice@example.com".
Definition bob : User := mkUser 2 "bob@example.com".

(** Alice has two vps and two applications; Bob has four vps and no
    application. *)
Definition db_sample : DB :=
  mkDB [alice; bob]
       [mkProfile 1 1; mkProfile 2 2]
       [mkVps 10 1; mkVps 11 1; mkVps 12 2; mkVps 13 2; mkVps 14 2;
        mkVps 15 2]
       [mkApplication 20 1; mkApplication 21 1].

(** One user with a single vps and two applications. *)
Definition db_one_vps_two_apps : DB :=
  mkDB [alice] [mkProfile 1 1] [mkVps 10 1]
       [mkApplication 20 1; mkApplication 21 1].

(** * Properties *)

(** ** The workload expression *)

Ltac leb_cases :=
  repeat match goal with
         | |- context [ ?a <=? ?b ] => destruct (Z.leb_spec a b)
         end;
  simpl; try reflexivity; try lia.

Lemma workload_me_unfold (n : Z) :
  workload_me n =
  if (1 <=? n) && (n <=? 3) then Some "EASY"
  else if (3 <=? n) && (n <=? 8) then Some "MEDIUM"
  else if 9 <=? n then Some "HARD"
  else Some "VERY_EASY".
Proof. reflexivity. Qed.

Lemma workload_list_unfold (n : Z) :
  workload_list n =
  if (1 <=? n) && (n <=? 3) then Some "EASY"
  else if (3 <=? n) && (n <=? 8) then Some "MEDIUM"
  else if 9 <=? n then Some "HARD"
  else Some "VERY_EASY".
Proof. reflexivity. Qed.

Lemma spec_classify_unfold (n : Z) :
  spec_classify n =
  if (1 <=? n) && (n <=? 3) then Some "EASY"
  else if (3 <=? n) && (n <=? 8) then Some "MEDIUM"
  else if 9 <=? n then Some "HARD"
  else Some "VERY_EASY".
Proof. reflexivity. Qed.

Example workload_me_0 : workload_me 0 = Some "VERY_EASY".
Proof. reflexivity. Qed.

Example workload_me_4 : workload_me 4 = Some "MEDIUM".
Proof. reflexivity. Qed.

Example workload_me_8 : workload_me 8 = Some "MEDIUM".
Proof. reflexivity. Qed.

Example workload_list_9 : workload_list 9 = Some "HARD".
Proof. reflexivity. Qed.

Example workload_list_1000 : workload_list 1000 = Some "HARD".
Proof. reflexivity. Qed.

(** The sites agree with each other on every integer. *)
Lemma workload_sites_agree (n : Z) : workload_list n = workload_me n.
Proof. rewrite workload_list_unfold, workload_me_unfold. reflexivity. Qed.

(** The closed form of the expression on the whole of [Z]. *)
Lemma workload_me_cases (n : Z) :
  (n <= 0 /\ workload_me n = Some "VERY_EASY") \/
  (1 <= n <= 3 /\ workload_me n = Some "EASY") \/
  (4 <= n <= 8 /\ workload_me n = Some "MEDIUM") \/
  (9 <= n /\ workload_me n = Some "HARD").
Proof.
  rewrite workload_me_unfold.
  destruct (Z_le_gt_dec n 0) as [H0 | H0].
  - left. split; [assumption |]. leb_cases.
  - destruct (Z_le_gt_dec n 3) as [H3 | H3].
    + right; left. split; [lia |]. leb_cases.
    + destruct (Z_le_gt_dec n 8) as [H8 | H8].
      * right; right; left. split; [lia |]. leb_cases.
      * right; right; right. split; [lia |]. leb_cases.
Qed.

Lemma workload_me_in_labels (n : Z) :
  exists l, In l labels /\ workload_me n = Some l.
Proof.
  destruct (workload_me_cases n) as [[_ H] | [[_ H] | [[_ H] | [_ H]]]];
    rewrite H; eexists; (split; [| reflexivity]); simpl; tauto.
Qed.

(** C1. For every non-negative count the expression of either view gives
    the label of the specification's ordered rule table read
    first-match-wins: EASY for 1..3 (so 3 is EASY, not MEDIUM), MEDIUM
    for 4..8, HARD from 9 on, VERY_EASY for 0. *)
Theorem workload_first_match_wins (n : Z) (Hn : 0 <= n) :
  (workload_me n = spec_classify n /\ workload_list n = spec_classify n) /\
  (1 <= n <= 3 ->
   workload_me n = Some "EASY" /\ workload_list n = Some "EASY") /\
  (4 <= n <= 8 ->
   workload_me n = Some "MEDIUM" /\ workload_list n = Some "MEDIUM") /\
  (9 <= n ->
   workload_me n = Some "HARD" /\ workload_list n = Some "HARD") /\
  (n = 0 ->
   workload_me n = Some "VERY_EASY" /\ workload_list n = Some "VERY_EASY").
Proof.
  split.
  - split.
    + rewrite workload_me_unfold, spec_classify_unfold. reflexivity.
    + rewrite workload_list_unfold, spec_classify_unfold. reflexivity.
  - pose proof (workload_sites_agree n) as E.
    destruct (workload_me_cases n) as [[R H] | [[R H] | [[R H] | [R H]]]];
      repeat split; intros; try lia; congruence.
Qed.

Lemma workload_first_match_wins_at_3 :
  0 <= 3 /\ 1 <= 3 <= 3 /\
  workload_me 3 = Some "EASY" /\ workload_list 3 = Some "EASY" /\
  workload_me 3 = spec_classify 3.
Proof.
  assert (H0 : 0 <= 3) by lia.
  assert (H1 : 1 <= 3 <= 3) by lia.
  destruct (workload_first_match_wins 3 H0) as [[Hs _] [He _]].
  destruct (He H1) as [Hme Hlist].
  repeat split; try assumption; lia.
Defined.

(** ** Lists, joins and groups *)

Section ListFacts.

Context {A B : Type}.

Lemma filter_flat_map (p : B -> bool) (f : A -> list B) (l : list A) :
  filter p (flat_map f l) = flat_map (fun a => filter p (f a)) l.
Proof.
  induction l as [| a l IH]; simpl; [reflexivity |].
  rewrite filter_app, IH. reflexivity.
Qed.

Lemma filter_uniform (q : B -> bool) (b : bool) (l : list B) :
  (forall r, In r l -> q r = b) ->
  filter q l = if b then l else [].
Proof.
  induction l as [| r l IH]; intros H; simpl.
  - destruct b; reflexivity.
  - rewrite (H r (or_introl eq_refl)), IH
      by (intros r' Hr'; apply H; right; exact Hr').
    destruct b; reflexivity.
Qed.

Lemma flat_map_if_filter (p : A -> bool) (f : A -> list B) (l : list A) :
  flat_map (fun a => if p a then f a else []) l = flat_map f (filter p l).
Proof.
  induction l as [| a l IH]; simpl; [reflexivity |].
  destruct (p a); simpl; rewrite IH; reflexivity.
Qed.

Lemma NoDup_map_filter (f : A -> Z) (p : A -> bool) (l : list A) :
  NoDup (map f l) -> NoDup (map f (filter p l)).
Proof.
  induction l as [| a l IH]; simpl; intros H; [exact H |].
  inversion H as [| x xs Hnin Hnd]; subst.
  destruct (p a); simpl; [| auto].
  constructor; [| auto].
  intros Hin. apply Hnin.
  apply in_map_iff in Hin. destruct Hin as [a' [E Ha']].
  apply filter_In in Ha'. apply in_map_iff. exists a'. tauto.
Qed.

Lemma in_left_outer_join (on : A -> B -> bool) (l : list A) (r : list B)
      (x : A * option B) :
  In x (left_outer_join on l r) <->
  In (fst x) l /\
  match snd x with
  | None => filter (on (fst x)) r = []
  | Some b => In b r /\ on (fst x) b = true
  end.
Proof.
  unfold left_outer_join. rewrite in_flat_map. destruct x as [a ob]. simpl.
  split.
  - intros [a' [Ha' Hx]].
    destruct (filter (on a') r) as [| b0 bs] eqn:E.
    + destruct Hx as [Hx | []]. inversion Hx; subst. tauto.
    + change (In (a, ob) (map (fun b => (a', Some b)) (b0 :: bs))) in Hx.
      apply in_map_iff in Hx. destruct Hx as [b [Hx Hb]].
      inversion Hx; subst. split; [assumption |].
      rewrite <- E in Hb. apply filter_In in Hb. exact Hb.
  - intros [Ha H]. exists a. split; [assumption |].
    destruct ob as [b |].
    + assert (Hb : In b (filter (on a) r)) by (apply filter_In; exact H).
      destruct (filter (on a) r) as [| b0 bs]; [destruct Hb |].
      change (In (a, Some b) (map (fun b => (a, Some b)) (b0 :: bs))).
      apply in_map_iff. exists b. tauto.
    + rewrite H. left. reflexivity.
Qed.

Lemma left_outer_join_app (on : A -> B -> bool) (l1 l2 : list A)
      (r : list B) :
  left_outer_join on (l1 ++ l2) r =
  left_outer_join on l1 r ++ left_outer_join on l2 r.
Proof. unfold left_outer_join. apply flat_map_app. Qed.

Lemma left_outer_join_nonempty (on : A -> B -> bool) (l : list A)
      (r : list B) :
  l <> [] -> left_outer_join on l r <> [].
Proof.
  destruct l as [| a l]; [congruence |]. intros _. simpl.
  destruct (filter (on a) r); simpl; discriminate.
Qed.

End ListFacts.

Lemma non_null_app {A} (l1 l2 : list (option A)) :
  non_null (l1 ++ l2) = non_null l1 ++ non_null l2.
Proof. unfold non_null. apply flat_map_app. Qed.

Lemma in_non_null {A} (col : list (option A)) (a : A) :
  In a (non_null col) <-> In (Some a) col.
Proof.
  unfold non_null. rewrite in_flat_map. split.
  - intros [[a' |] [Hin Ha]]; simpl in Ha; [| destruct Ha].
    destruct Ha as [-> | []]. exact Hin.
  - intros H. exists (Some a). simpl. tauto.
Qed.

Lemma count_nonneg {A} (col : list (option A)) : 0 <= count col.
Proof. unfold count. lia. Qed.

Lemma nodup_length_same_elements (l1 l2 : list Z) :
  (forall x, In x l1 <-> In x l2) ->
  length (nodup Z.eq_dec l1) = length (nodup Z.eq_dec l2).
Proof.
  intros H. apply Nat.le_antisymm;
    (apply NoDup_incl_length; [apply NoDup_nodup |]);
    intros x Hx; apply nodup_In; apply nodup_In in Hx; apply H; exact Hx.
Qed.

Lemma flat_map_all_nil {A B} (f : A -> list B) (l : list A) :
  (forall a, In a l -> f a = []) -> flat_map f l = [].
Proof.
  induction l as [| a l IH]; intros H; simpl; [reflexivity |].
  rewrite (H a) by (left; reflexivity).
  apply IH. intros a' Ha'. apply H. right. exact Ha'.
Qed.

Lemma in_group_by {R} (key : R -> Z) (rows g : list R) :
  In g (group_by key rows) <->
  exists k, In k (map key rows) /\ g = filter (fun r => key r =? k) rows.
Proof.
  unfold group_by. rewrite in_map_iff. split.
  - intros [k [E Hk]]. exists k. apply nodup_In in Hk. auto.
  - intros [k [Hk E]]. exists k. split; [auto |]. apply nodup_In. exact Hk.
Qed.

(** ** The joined rows of the stored users *)

Section Rows.

Variable db : DB.

Lemma joined_flat_map : joined db = flat_map (rows_of db) (users db).
Proof.
  unfold joined, rows_of.
  induction (users db) as [| u us IH]; [reflexivity |].
  change (u :: us) with ([u] ++ us).
  rewrite !left_outer_join_app, IH, flat_map_app. simpl flat_map at 2.
  rewrite app_nil_r. reflexivity.
Qed.

Lemma rows_of_user (u : User) (r : JoinRow) :
  In r (rows_of db u) -> j_user r = u.
Proof.
  unfold rows_of. intros H.
  apply in_left_outer_join in H. destruct H as [H _].
  apply in_left_outer_join in H. destruct H as [[H | []] _].
  symmetry. exact H.
Qed.

Lemma rows_of_pk (u : User) (r : JoinRow) :
  In r (rows_of db u) -> pk r = user_id u.
Proof. intros H. unfold pk. rewrite (rows_of_user u r H). reflexivity. Qed.

Lemma rows_of_nonempty (u : User) : rows_of db u <> [].
Proof.
  unfold rows_of. apply left_outer_join_nonempty.
  apply left_outer_join_nonempty. discriminate.
Qed.

Lemma joined_user (r : JoinRow) :
  In r (joined db) -> In (j_user r) (users db).
Proof.
  rewrite joined_flat_map, in_flat_map. intros [u [Hu Hr]].
  rewrite (rows_of_user u r Hr). exact Hu.
Qed.

(** [WHERE] on a user column selects whole users. *)
Lemma where_rows (p : User -> bool) (us : list User) :
  filter (fun r => p (j_user r)) (flat_map (rows_of db) us) =
  flat_map (rows_of db) (filter p us).
Proof.
  rewrite filter_flat_map, <- flat_map_if_filter.
  apply flat_map_ext. intros u. apply filter_uniform.
  intros r Hr. rewrite (rows_of_user u r Hr). reflexivity.
Qed.

(** With unique primary keys the group of a user is exactly its rows. *)
Lemma group_of_user (us : list User) (u : User) :
  NoDup (map user_id us) -> In u us ->
  filter (fun r => pk r =? user_id u) (flat_map (rows_of db) us) =
  rows_of db u.
Proof.
  rewrite filter_flat_map.
  induction us as [| a us IH]; simpl; intros Hnd Hin; [destruct Hin |].
  inversion Hnd as [| x xs Hnin Hnd']; subst.
  destruct Hin as [-> | Hin].
  - rewrite (filter_uniform _ true).
    + rewrite flat_map_all_nil; [apply app_nil_r |].
      intros a Ha. rewrite (filter_uniform _ false); [reflexivity |].
      intros r Hr. rewrite (rows_of_pk a r Hr).
      apply Z.eqb_neq. intros E. apply Hnin. rewrite <- E.
      apply in_map. exact Ha.
    + intros r Hr. rewrite (rows_of_pk u r Hr). apply Z.eqb_refl.
  - rewrite (filter_uniform _ false).
    + simpl. apply IH; assumption.
    + intros r Hr. rewrite (rows_of_pk a r Hr).
      apply Z.eqb_neq. intros E. apply Hnin. rewrite E.
      apply in_map. exact Hin.
Qed.

Lemma in_keys (us : list User) (k : Z) :
  In k (map pk (flat_map (rows_of db) us)) <->
  exists u, In u us /\ user_id u = k.
Proof.
  rewrite in_map_iff. split.
  - intros [r [E Hr]]. apply in_flat_map in Hr. destruct Hr as [u [Hu Hr]].
    exists u. split; [exact Hu |]. rewrite <- E. symmetry.
    apply rows_of_pk. exact Hr.
  - intros [u [Hu E]].
    destruct (rows_of db u) as [| r rs] eqn:Er;
      [exfalso; exact (rows_of_nonempty u Er) |].
    assert (Hr : In r (rows_of db u)) by (rewrite Er; left; reflexivity).
    exists r. split.
    + rewrite <- E. apply rows_of_pk. exact Hr.
    + apply in_flat_map. exists u. auto.
Qed.

Lemma in_groups (us : list User) (g : list JoinRow) :
  NoDup (map user_id us) ->
  (In g (group_by pk (flat_map (rows_of db) us)) <->
   exists u, In u us /\ g = rows_of db u).
Proof.
  intros Hnd. rewrite in_group_by. split.
  - intros [k [Hk ->]]. apply in_keys in Hk. destruct Hk as [u [Hu <-]].
    exists u. split; [exact Hu |]. apply group_of_user; assumption.
  - intros [u [Hu ->]]. exists (user_id u). split.
    + apply in_keys. exists u. auto.
    + symmetry. apply group_of_user; assumption.
Qed.

Lemma annotate_rows_of (case : Z -> option string) (u : User) :
  annotate case db (rows_of db u) = [annotated_row case db u].
Proof.
  unfold annotated_row.
  pose proof (rows_of_user u) as Hu.
  destruct (rows_of db u) as [| r rs] eqn:Er;
    [exfalso; exact (rows_of_nonempty u Er) |].
  unfold annotate. rewrite (Hu r (or_introl eq_refl)). reflexivity.
Qed.

(** The annotated query, with unique user keys: one annotated row per
    selected user. *)
Lemma in_annotated_query (p : User -> bool) (case : Z -> option string)
      (o : AnnotatedUser) :
  NoDup (map user_id (users db)) ->
  (In o (annotated_query p case db) <->
   exists u, In u (users db) /\ p u = true /\ o = annotated_row case db u).
Proof.
  intros Hnd. unfold annotated_query. fold pk.
  rewrite joined_flat_map, where_rows, in_flat_map.
  split.
  - intros [g [Hg Ho]].
    apply in_groups in Hg; [| apply NoDup_map_filter; exact Hnd].
    destruct Hg as [u [Hu ->]]. apply filter_In in Hu.
    rewrite annotate_rows_of in Ho. destruct Ho as [Ho | []].
    exists u. intuition.
  - intros [u [Hu [Hp ->]]]. exists (rows_of db u). split.
    + apply in_groups; [apply NoDup_map_filter; exact Hnd |].
      exists u. split; [| reflexivity]. apply filter_In. auto.
    + rewrite annotate_rows_of. left. reflexivity.
Qed.

(** What every annotated row satisfies, whatever the tables hold. *)
Lemma annotated_query_fields (p : User -> bool)
      (case : Z -> option string) (o : AnnotatedUser) :
  In o (annotated_query p case db) ->
  In (user o) (users db) /\ p (user o) = true /\
  0 <= vps_count o /\ workload o = case (vps_count o) /\
  0 <= applications_deployed o.
Proof.
  unfold annotated_query. rewrite in_flat_map.
  intros [g [Hg Ho]]. apply in_group_by in Hg. destruct Hg as [k [_ Eg]].
  destruct g as [| r g']; [destruct Ho |].
  assert (Hr : In r (r :: g')) by (left; reflexivity).
  rewrite Eg in Hr. apply filter_In in Hr. destruct Hr as [Hr _].
  apply filter_In in Hr. destruct Hr as [Hr Hp].
  destruct Ho as [<- | []]. simpl.
  repeat split; auto using joined_user, count_nonneg.
  unfold count_distinct. lia.
Qed.

(** The annotated query is empty exactly when [WHERE] selects no user. *)
Lemma annotated_query_nil (p : User -> bool) (case : Z -> option string) :
  annotated_query p case db = [] <->
  forall u, In u (users db) -> p u = false.
Proof.
  unfold annotated_query. fold pk. rewrite joined_flat_map, where_rows.
  split.
  - intros E u Hu. destruct (p u) eqn:Hp; [exfalso | reflexivity].
    assert (Hk : In (user_id u)
                    (map pk (flat_map (rows_of db) (filter p (users db))))).
    { apply in_keys. exists u. split; [apply filter_In; auto | reflexivity]. }
    pose proof Hk as Hk'.
    apply in_map_iff in Hk'. destruct Hk' as [r [Er Hr]].
    set (rows := flat_map (rows_of db) (filter p (users db))) in *.
    set (g := filter (fun r => pk r =? user_id u) rows).
    assert (Hg : In g (group_by pk rows))
      by (apply in_group_by; exists (user_id u); auto).
    assert (Hrg : In r g)
      by (apply filter_In; split; [exact Hr | apply Z.eqb_eq; exact Er]).
    destruct g as [| r0 g'] eqn:Eg; [destruct Hrg |].
    assert (Ho : In (hd (annotated_row case db u) (annotate case db (r0 :: g')))
                    (flat_map (annotate case db) (group_by pk rows))).
    { apply in_flat_map. exists (r0 :: g'). split; [exact Hg |].
      simpl. left. reflexivity. }
    rewrite E in Ho. destruct Ho.
  - intros H.
    assert (E : filter p (users db) = []).
    { destruct (filter p (users db)) as [| u us] eqn:E; [reflexivity |].
      assert (Hu : In u (filter p (users db)))
        by (rewrite E; left; reflexivity).
      apply filter_In in Hu. destruct Hu as [Hu Hp].
      rewrite (H u Hu) in Hp. discriminate. }
    rewrite E. reflexivity.
Qed.

End Rows.

(** ** Counting over the joined rows of one user *)

Lemma flat_map_ext_in {A B} (f g : A -> list B) (l : list A) :
  (forall a, In a l -> f a = g a) -> flat_map f l = flat_map g l.
Proof.
  induction l as [| a l IH]; intros H; simpl; [reflexivity |].
  rewrite (H a) by (left; reflexivity).
  rewrite IH by (intros a' Ha'; apply H; right; exact Ha').
  reflexivity.
Qed.

Lemma non_null_constant {A R} (c : option A) (l : list R) :
  length (non_null (map (fun _ => c) l)) =
  match c with Some _ => length l | None => 0%nat end.
Proof.
  induction l as [| r l IH]; simpl.
  - destruct c; reflexivity.
  - rewrite length_app, IH. destruct c; reflexivity.
Qed.

Section Counting.

Variable db : DB.
Variable u : User.

Let vps_column (r : JoinRow) : option Z := option_map vps_id (j_vps r).
Let application_column (r : JoinRow) : option Z :=
  option_map application_id (j_application r).

Lemma vps_side_user (x : User * option Vps) :
  In x (vps_side db u) -> fst x = u.
Proof.
  unfold vps_side. destruct (vps_of db u) as [| v vs].
  - intros [<- | []]. reflexivity.
  - intros H.
    change (In x (map (fun v => (u, Some v)) (v :: vs))) in H.
    apply in_map_iff in H. destruct H as [v' [<- _]]. reflexivity.
Qed.

Lemma rows_of_sides :
  rows_of db u = flat_map (application_side db u) (vps_side db u).
Proof.
  unfold rows_of. unfold left_outer_join at 2. simpl flat_map.
  rewrite app_nil_r.
  change (match filter (fun v => vps_user_id v =? user_id u) (vpss db) with
          | [] => [(u, None)]
          | v :: vs => map (fun b => (u, Some b)) (v :: vs)
          end) with (vps_side db u).
  unfold left_outer_join. apply flat_map_ext_in.
  intros x Hx. unfold application_side, applications_of.
  rewrite (vps_side_user x Hx). reflexivity.
Qed.

Lemma application_side_length (x : User * option Vps) :
  length (application_side db u x) =
  Nat.max 1 (length (applications_of db u)).
Proof.
  unfold application_side. destruct (applications_of db u) as [| b bs].
  - reflexivity.
  - change (length (map (fun b => (x, Some b)) (b :: bs)) =
            Nat.max 1 (length (b :: bs))).
    rewrite length_map. simpl length. lia.
Qed.

Lemma application_side_left (x : User * option Vps) (r : JoinRow) :
  In r (application_side db u x) -> fst r = x.
Proof.
  unfold application_side. destruct (applications_of db u) as [| b bs].
  - intros [<- | []]. reflexivity.
  - intros H.
    change (In r (map (fun b => (x, Some b)) (b :: bs))) in H.
    apply in_map_iff in H. destruct H as [b' [<- _]]. reflexivity.
Qed.

(** The vps column of the rows built from one left row: its vps value,
    once per application (or once when there is none). *)
Lemma application_side_vps_count (x : User * option Vps) :
  length (non_null (map vps_column (application_side db u x))) =
  match snd x with
  | Some _ => Nat.max 1 (length (applications_of db u))
  | None => 0%nat
  end.
Proof.
  rewrite (map_ext_in vps_column (fun _ => option_map vps_id (snd x))).
  - rewrite non_null_constant, application_side_length.
    destruct (snd x); reflexivity.
  - intros r Hr. unfold vps_column, j_vps.
    rewrite (application_side_left x r Hr). reflexivity.
Qed.

Lemma vps_rows_count (vs : list Vps) :
  length (non_null (map vps_column
            (flat_map (application_side db u)
                      (map (fun v => (u, Some v)) vs)))) =
  (length vs * Nat.max 1 (length (applications_of db u)))%nat.
Proof.
  induction vs as [| v vs IH]; [reflexivity |].
  cbn [map flat_map].
  rewrite map_app, non_null_app, length_app, IH.
  rewrite application_side_vps_count. cbn [snd length]. lia.
Qed.

(** [Count("vps")] over a user's rows of the double join: every vps is
    met once per application of the user. *)
Lemma count_vps_rows :
  count (map vps_column (rows_of db u)) =
  Z.of_nat (length (vps_of db u) *
            Nat.max 1 (length (applications_of db u))).
Proof.
  unfold count. f_equal. rewrite rows_of_sides. unfold vps_side.
  destruct (vps_of db u) as [| v vs].
  - simpl flat_map. rewrite app_nil_r, application_side_vps_count.
    reflexivity.
  - apply (vps_rows_count (v :: vs)).
Qed.

Lemma application_ids_rows (a : Z) :
  In a (non_null (map application_column (rows_of db u))) <->
  In a (map application_id (applications_of db u)).
Proof.
  rewrite in_non_null, !in_map_iff. split.
  - intros [r [E Hr]]. pose proof (rows_of_user db u r Hr) as Hu.
    unfold rows_of in Hr. apply in_left_outer_join in Hr.
    destruct Hr as [_ Hr]. unfold application_column, j_application in E.
    destruct (snd r) as [b |]; [| discriminate].
    injection E as E. exists b. split; [exact E |].
    apply filter_In. unfold j_user in Hu. rewrite Hu in Hr. exact Hr.
  - intros [b [E Hb]]. apply filter_In in Hb.
    destruct (vps_side db u) as [| x xs] eqn:Ex.
    + exfalso. unfold vps_side in Ex.
      destruct (vps_of db u); discriminate.
    + assert (Hx : In x (vps_side db u)) by (rewrite Ex; left; reflexivity).
      exists (x, Some b). split; [rewrite <- E; reflexivity |].
      rewrite rows_of_sides. apply in_flat_map. exists x. split; [exact Hx |].
      unfold application_side.
      assert (Hb' : In b (applications_of db u)) by (apply filter_In; exact Hb).
      destruct (applications_of db u) as [| b0 bs]; [destruct Hb' |].
      change (In (x, Some b) (map (fun b => (x, Some b)) (b0 :: bs))).
      apply (in_map (fun b => (x, Some b))). exact Hb'.
Qed.

(** [Count("application", distinct=True)] over the same rows: every
    application is met once per vps, and counted once. *)
Lemma count_distinct_application_rows :
  NoDup (map application_id (applications db)) ->
  count_distinct (map application_column (rows_of db u)) =
  Z.of_nat (length (applications_of db u)).
Proof.
  intros Hnd. unfold count_distinct. f_equal.
  rewrite (nodup_length_same_elements _ _ application_ids_rows).
  rewrite nodup_fixed_point, length_map; [reflexivity |].
  unfold applications_of. apply NoDup_map_filter. exact Hnd.
Qed.

End Counting.

(** ** Ordering and [first] *)

Section Ordering.

Context {R : Type} (key : R -> Z).

Lemma in_insert_by (x y : R) (l : list R) :
  In x (insert_by key y l) <-> x = y \/ In x l.
Proof.
  induction l as [| z l IH]; simpl.
  - intuition.
  - destruct (key y <=? key z); simpl; rewrite ?IH; intuition.
Qed.

Lemma in_order_by (x : R) (l : list R) :
  In x (order_by key l) <-> In x l.
Proof.
  induction l as [| y l IH]; simpl; [reflexivity |].
  rewrite in_insert_by, IH. intuition.
Qed.

Lemma first_order_by (l : list R) :
  match limit 1 (order_by key l) with
  | [] => l = []
  | [x] => In x l
  | _ => False
  end.
Proof.
  unfold limit.
  destruct (order_by key l) as [| x xs] eqn:E; simpl.
  - destruct l as [| y l]; [reflexivity |].
    assert (H : In y (order_by key (y :: l)))
      by (apply in_order_by; left; reflexivity).
    rewrite E in H. destruct H.
  - apply in_order_by. rewrite E. left. reflexivity.
Qed.

End Ordering.

(** ** The read paths *)

Lemma prefetch_final (objs : list AnnotatedUser) (db : DB) :
  ORM.final (prefetch_application_set objs) db = db.
Proof. reflexivity. Qed.

Lemma prefetch_agree (objs : list AnnotatedUser) (db : DB)
      (o : AnnotatedUser) :
  In o (ORM.result (prefetch_application_set objs) db) ->
  exists o', In o' objs /\ agree o o'.
Proof.
  unfold prefetch_application_set, ORM.result, ORM.bind, ORM.select, ORM.ret.
  simpl. intros H. apply in_map_iff in H. destruct H as [o' [<- Ho']].
  exists o'. unfold agree. simpl. repeat split; assumption.
Qed.

Lemma get_queryset_rows (db : DB) (o : AnnotatedUser) :
  In o (ORM.result get_queryset db) ->
  exists o', In o' (annotated_query (fun _ => true) workload_list db) /\
             agree o o'.
Proof. intros H. exact (prefetch_agree _ db o H). Qed.

Lemma get_object_result (request : Request) (db : DB) :
  ORM.result (get_object request) db =
  hd_error
    (ORM.result
       (prefetch_application_set
          (limit 1
             (order_by (fun o => user_id (user o))
                (annotated_query
                   (fun u => user_id u =? request_user_id request)
                   workload_me db))))
       db).
Proof. reflexivity. Qed.

Lemma get_object_cases (request : Request) (db : DB) :
  match ORM.result (get_object request) db with
  | Some o =>
      exists o',
        In o' (annotated_query (fun u => user_id u =? request_user_id request)
                               workload_me db) /\ agree o o'
  | None =>
      annotated_query (fun u => user_id u =? request_user_id request)
                      workload_me db = []
  end.
Proof.
  rewrite get_object_result.
  pose proof (first_order_by (fun o => user_id (user o))
                (annotated_query (fun u => user_id u =? request_user_id request)
                                 workload_me db)) as H.
  destruct (limit 1 _) as [| x [| y l]]; [exact H | | destruct H].
  destruct (ORM.result (prefetch_application_set [x]) db) as [| o os] eqn:E.
  - discriminate E.
  - simpl. destruct (prefetch_agree [x] db o) as [o' [[<- | []] Ha]].
    + rewrite E. left. reflexivity.
    + exists x. auto.
Qed.

Lemma get_object_final (request : Request) (db : DB) :
  ORM.final (get_object request) db = db.
Proof. reflexivity. Qed.

Lemma get_queryset_final (db : DB) : ORM.final get_queryset db = db.
Proof. reflexivity. Qed.

(** Every instance served comes from an annotated row whose [workload]
    is the expression of its view at the row's count. *)
Lemma served_row (db : DB) (o : AnnotatedUser) :
  served db o ->
  exists p o', In o' (annotated_query p workload_me db) /\ agree o o'.
Proof.
  intros [H | [request H]].
  - apply get_queryset_rows in H. destruct H as [o' [Ho' Ha]].
    exists (fun _ => true), o'. split; assumption.
  - pose proof (get_object_cases request db) as Hc. rewrite H in Hc.
    destruct Hc as [o' [Ho' Ha]].
    exists (fun u => user_id u =? request_user_id request), o'.
    split; assumption.
Qed.

Lemma get_object_user (request : Request) (db : DB) (o : AnnotatedUser) :
  ORM.result (get_object request) db = Some o ->
  In (user o) (users db) /\ user_id (user o) = request_user_id request.
Proof.
  intros E. pose proof (get_object_cases request db) as Hc. rewrite E in Hc.
  destruct Hc as [o' [Ho' [Hu _]]].
  apply annotated_query_fields in Ho'. destruct Ho' as [Hin [Hp _]].
  rewrite Hu. split; [exact Hin | apply Z.eqb_eq; exact Hp].
Qed.

Lemma served_fields (db : DB) (o : AnnotatedUser) :
  served db o ->
  In (user o) (users db) /\ 0 <= vps_count o /\
  workload o = workload_me (vps_count o) /\ 0 <= applications_deployed o.
Proof.
  intros H. apply served_row in H.
  destruct H as [p [o' [Ho' [Hu [_ [Hv [Hw Ha]]]]]]].
  apply annotated_query_fields in Ho'.
  destruct Ho' as [Hin [_ [Hn [Hc Hd]]]].
  rewrite Hu, Hv, Hw, Ha. auto.
Qed.

(** With unique primary keys, the annotations of an instance served are
    those of its user's joined rows. *)
Lemma served_annotated_row (db : DB) (o : AnnotatedUser) :
  well_formed db -> served db o ->
  In (user o) (users db) /\
  agree o (annotated_row workload_me db (user o)).
Proof.
  intros [Hnd _] H. apply served_row in H.
  destruct H as [p [o' [Ho' Ha]]].
  apply in_annotated_query in Ho'; [| exact Hnd].
  destruct Ho' as [u [Hu [_ ->]]].
  destruct Ha as [Eu Ha]. simpl in Eu. rewrite Eu.
  split; [exact Hu |]. split; [exact Eu | exact Ha].
Qed.

(** The count annotation over the double join, in general. *)
Lemma vps_count_join_law (db : DB) (o : AnnotatedUser) :
  well_formed db -> served db o ->
  vps_count o =
  Z.of_nat (length (vps_of db (user o)) *
            Nat.max 1 (length (applications_of db (user o)))).
Proof.
  intros Hwf H. destruct (served_annotated_row db o Hwf H) as [_ Ha].
  destruct Ha as [_ [_ [Hv _]]]. rewrite Hv. simpl.
  apply count_vps_rows.
Qed.

Lemma well_formed_db_sample : well_formed db_sample.
Proof.
  unfold well_formed, db_sample. simpl.
  repeat split; repeat constructor; simpl; intuition discriminate.
Defined.

Lemma well_formed_db_one_vps_two_apps : well_formed db_one_vps_two_apps.
Proof.
  unfold well_formed, db_one_vps_two_apps. simpl.
  repeat split; repeat constructor; simpl; intuition discriminate.
Defined.

(** ** The claims about the read paths *)

Lemma NoDup_labels : NoDup labels.
Proof.
  unfold labels. repeat constructor; simpl; intuition discriminate.
Qed.

(** C2. [vps_count] is meant to be the number of vps records of the
    user, however many applications the user has. On a database where
    the one user has a single vps and two applications both read paths
    report a [vps_count] of 2: [Count("vps")] runs over the rows of the
    double join, where the vps appears once per application. *)
Theorem vps_count_with_two_applications :
  well_formed db_one_vps_two_apps /\
  length (vps_of db_one_vps_two_apps alice) = 1%nat /\
  length (applications_of db_one_vps_two_apps alice) = 2%nat /\
  map (fun o => (user o, vps_count o))
      (ORM.result get_queryset db_one_vps_two_apps) = [(alice, 2)] /\
  option_map (fun o => (user o, vps_count o))
             (ORM.result (get_object (mkRequest 1)) db_one_vps_two_apps)
  = Some (alice, 2).
Proof.
  split; [exact well_formed_db_one_vps_two_apps |].
  repeat split.
Qed.

(** C3. On every non-negative count the expression of either view
    yields exactly one of the four (pairwise different) labels, and the
    [workload] of every instance a read path serves is exactly one of
    them. *)
Theorem workload_exactly_one_label :
  NoDup labels /\
  (forall n, 0 <= n ->
     (exists! l, In l labels /\ workload_me n = Some l) /\
     (exists! l, In l labels /\ workload_list n = Some l)) /\
  (forall db o, served db o ->
     exists! l, In l labels /\ workload o = Some l).
Proof.
  assert (U : forall n, exists! l, In l labels /\ workload_me n = Some l).
  { intros n. destruct (workload_me_in_labels n) as [l [Hl E]].
    exists l. split; [auto |]. intros l' [_ E']. congruence. }
  split; [exact NoDup_labels |]. split.
  - intros n _. split; [apply U |].
    pose proof (workload_sites_agree n) as E.
    destruct (U n) as [l [[Hl El] Hu]]. exists l. split.
    + split; [exact Hl | congruence].
    + intros l' [Hl' El']. apply Hu. split; [exact Hl' | congruence].
  - intros db o H. apply served_fields in H. destruct H as [_ [_ [Hw _]]].
    rewrite Hw. apply U.
Qed.

Lemma workload_exactly_one_label_sample :
  0 <= 5 /\
  (exists! l, In l labels /\ workload_me 5 = Some l) /\
  exists o, served db_sample o /\
            exists! l, In l labels /\ workload o = Some l.
Proof.
  destruct workload_exactly_one_label as [_ [Hn Hs]].
  assert (H5 : 0 <= 5) by lia.
  split; [exact H5 |]. split; [exact (proj1 (Hn 5 H5)) |].
  eexists. split.
  - right. exists (mkRequest 2). reflexivity.
  - apply (Hs db_sample). right. exists (mkRequest 2). reflexivity.
Defined.



(** C6. The label is a function of the count alone: two instances with
    the same count, served from any two databases by either read path,
    carry the same label, and serving them changes neither database. *)
Theorem workload_depends_only_on_count
        (db1 db2 : DB) (o1 o2 : AnnotatedUser)
        (H1 : served db1 o1) (H2 : served db2 o2)
        (Hn : vps_count o1 = vps_count o2) :
  workload o1 = workload o2 /\
  ORM.final get_queryset db1 = db1 /\
  ORM.final get_queryset db2 = db2 /\
  (forall request, ORM.final (get_object request) db1 = db1) /\
  (forall request, ORM.final (get_object request) db2 = db2).
Proof.
  apply served_fields in H1. destruct H1 as [_ [_ [W1 _]]].
  apply served_fields in H2. destruct H2 as [_ [_ [W2 _]]].
  split; [rewrite W1, W2, Hn; reflexivity |].
  repeat split.
Qed.

Lemma workload_depends_only_on_count_sample :
  exists o1 o2,
    served db_sample o1 /\ served db_sample o2 /\
    user o1 = alice /\ user o2 = bob /\
    vps_count o1 = vps_count o2 /\ workload o1 = workload o2.
Proof.
  assert (S1 : served db_sample
                 (mkAnnotatedUser alice (Some (mkProfile 1 1))
                    [mkApplication 20 1; mkApplication 21 1]
                    4 (Some "MEDIUM") 2))
    by (right; exists (mkRequest 1); reflexivity).
  assert (S2 : served db_sample
                 (mkAnnotatedUser bob (Some (mkProfile 2 2)) []
                    4 (Some "MEDIUM") 0))
    by (right; exists (mkRequest 2); reflexivity).
  eexists. eexists.
  split; [exact S1 |]. split; [exact S2 |].
  split; [reflexivity |]. split; [reflexivity |]. split; [reflexivity |].
  exact (proj1 (workload_depends_only_on_count
                  db_sample db_sample _ _ S1 S2 eq_refl)).
Defined.

(** C7. Neither read path writes: the database after [get_object] or
    after the evaluated [get_queryset] is the database before, stored
    users included, and a second read right after the first returns the
    same instances. *)
Theorem reads_leave_database_unchanged (db : DB) (request : Request) :
  ORM.final (get_object request) db = db /\
  ORM.final get_queryset db = db /\
  users (ORM.final (get_object request) db) = users db /\
  users (ORM.final get_queryset db) = users db /\
  ORM.result (_ <- get_queryset ;; get_queryset) db =
  ORM.result get_queryset db /\
  ORM.result (_ <- get_object request ;; get_object request) db =
  ORM.result (get_object request) db.
Proof.
  rewrite get_object_final, get_queryset_final.
  repeat split.
Qed.

(** C8. The [workload] expression of [UserMeViewSet.get_object] and that
    of [UserViewSet.get_queryset] give the same label on every count. *)
Theorem workload_expressions_equal (n : Z) : workload_me n = workload_list n.
Proof.
  rewrite workload_me_unfold, workload_list_unfold. reflexivity.
Qed.

(** C9. At both call sites the classifier is applied to the count
    annotation, which is never negative: no instance served was
    classified on a negative input. *)
Theorem classifier_input_non_negative
        (db : DB) (o : AnnotatedUser) (Ho : served db o) :
  0 <= vps_count o /\ ~ vps_count o < 0 /\
  workload o = workload_me (vps_count o) /\
  workload o = workload_list (vps_count o).
Proof.
  apply served_fields in Ho. destruct Ho as [_ [Hn [Hw _]]].
  pose proof (workload_sites_agree (vps_count o)) as E.
  repeat split; [exact Hn | lia | exact Hw | congruence].
Qed.

Lemma classifier_input_non_negative_sample :
  exists o, served db_sample o /\ user o = bob /\
            0 <= vps_count o /\
            workload o = workload_me (vps_count o).
Proof.
  assert (S2 : served db_sample
                 (mkAnnotatedUser bob (Some (mkProfile 2 2)) []
                    4 (Some "MEDIUM") 0))
    by (left; simpl; right; left; reflexivity).
  eexists. split; [exact S2 |]. split; [reflexivity |].
  destruct (classifier_input_non_negative db_sample _ S2) as [Hn [_ [Hw _]]].
  split; [exact Hn | exact Hw].
Defined.

(** C10. [get_object] returns a stored user whose id is the requesting
    user's id, or [None], and [None] only when no stored user has that
    id; it never returns another user's record. *)
Theorem get_object_returns_own_record (db : DB) (request : Request) :
  match ORM.result (get_object request) db with
  | Some o =>
      In (user o) (users db) /\
      user_id (user o) = request_user_id request
  | None =>
      forall u, In u (users db) -> user_id u <> request_user_id request
  end.
Proof.
  pose proof (get_object_cases request db) as Hc.
  destruct (ORM.result (get_object request) db) as [o |] eqn:E.
  - apply get_object_user. exact E.
  - intros u Hu. apply Z.eqb_neq.
    apply (proj1 (annotated_query_nil db _ _) Hc u Hu).
Qed.

(** ** The instances served, written out *)

Lemma filter_filter_implied {A} (p q : A -> bool) (l : list A) :
  (forall a, In a l -> p a = true -> q a = true) ->
  filter p (filter q l) = filter p l.
Proof.
  induction l as [| a l IH]; intros H; simpl; [reflexivity |].
  assert (IH' : filter p (filter q l) = filter p l)
    by (apply IH; intros b Hb; apply H; right; exact Hb).
  destruct (p a) eqn:Hp.
  - rewrite (H a (or_introl eq_refl) Hp). simpl. rewrite Hp, IH'.
    reflexivity.
  - destruct (q a); simpl; rewrite ?Hp; exact IH'.
Qed.

Lemma flat_map_map {A B C} (f : B -> list C) (g : A -> B) (l : list A) :
  flat_map f (map g l) = flat_map (fun a => f (g a)) l.
Proof.
  induction l as [| a l IH]; simpl; [reflexivity |].
  rewrite IH. reflexivity.
Qed.

Lemma NoDup_map_injective {A} (f : A -> Z) (l : list A) (a b : A) :
  NoDup (map f l) -> In a l -> In b l -> f a = f b -> a = b.
Proof.
  induction l as [| c l IH]; simpl; intros Hnd Ha Hb E; [destruct Ha |].
  inversion Hnd as [| x xs Hnin Hnd']; subst.
  destruct Ha as [-> | Ha]; destruct Hb as [-> | Hb].
  - reflexivity.
  - exfalso. apply Hnin. rewrite E. apply in_map. exact Hb.
  - exfalso. apply Hnin. rewrite <- E. apply in_map. exact Ha.
  - apply IH; assumption.
Qed.

(** One list of at most one element per key, each carrying its key:
    the keys of the whole are distinct. *)
Lemma NoDup_one_per_key {X} (key : X -> Z) (f : Z -> list X) (ks : list Z) :
  NoDup ks ->
  (forall k x, In x (f k) -> key x = k) ->
  (forall k, (length (f k) <= 1)%nat) ->
  NoDup (map key (flat_map f ks)).
Proof.
  intros Hnd Hkey Hlen.
  induction ks as [| k ks IH]; simpl; [constructor |].
  inversion Hnd as [| x xs Hnin Hnd']; subst.
  rewrite map_app. specialize (IH Hnd').
  pose proof (Hlen k) as Hk. pose proof (Hkey k) as Hkk.
  destruct (f k) as [| x [| y l]]; simpl in *; [exact IH | | lia].
  constructor; [| exact IH].
  rewrite (Hkk x (or_introl eq_refl)).
  intros Hin. apply in_map_iff in Hin. destruct Hin as [z [Ez Hz]].
  apply in_flat_map in Hz. destruct Hz as [k' [Hk' Hz]].
  apply Hkey in Hz. apply Hnin. congruence.
Qed.

Lemma prefetch_result_eq (objs : list AnnotatedUser) (db : DB) :
  ORM.result (prefetch_application_set objs) db =
  map (with_applications db) objs.
Proof.
  unfold prefetch_application_set, ORM.result, ORM.bind, ORM.select, ORM.ret.
  simpl. apply map_ext_in. intros o Ho.
  unfold with_applications, applications_of. f_equal.
  apply filter_filter_implied. intros a _ Ha.
  apply existsb_exists. exists o. split; assumption.
Qed.

Lemma get_queryset_result (db : DB) :
  ORM.result get_queryset db =
  map (with_applications db)
      (annotated_query (fun _ => true) workload_list db).
Proof. apply prefetch_result_eq. Qed.

Lemma annotated_row_sites (db : DB) (u : User) :
  annotated_row workload_list db u = annotated_row workload_me db u.
Proof.
  unfold annotated_row. f_equal; apply workload_sites_agree.
Qed.

Lemma with_applications_annotated_row (db : DB) (u : User) :
  NoDup (map application_id (applications db)) ->
  with_applications db (annotated_row workload_me db u) = instance_of db u.
Proof.
  intros Hnd. unfold with_applications, annotated_row, instance_of. simpl.
  rewrite count_vps_rows, (count_distinct_application_rows db u Hnd).
  reflexivity.
Qed.

(** The rows of the annotated query have pairwise different user ids. *)
Lemma annotated_query_distinct (p : User -> bool)
      (case : Z -> option string) (db : DB) :
  NoDup (map (fun o => user_id (user o)) (annotated_query p case db)).
Proof.
  unfold annotated_query, group_by. rewrite flat_map_map.
  apply NoDup_one_per_key.
  - apply NoDup_nodup.
  - intros k x Hx.
    destruct (filter _ _) as [| r g] eqn:E; [destruct Hx |].
    assert (Hr : In r (r :: g)) by (left; reflexivity).
    rewrite <- E in Hr. apply filter_In in Hr. destruct Hr as [_ Hr].
    destruct Hx as [<- | []]. simpl. apply Z.eqb_eq. exact Hr.
  - intros k. destruct (filter _ _); simpl; lia.
Qed.

Lemma annotated_query_permutation (p : User -> bool)
      (case : Z -> option string) (db : DB) :
  NoDup (map user_id (users db)) ->
  Permutation (annotated_query p case db)
              (map (annotated_row case db) (filter p (users db))).
Proof.
  intros Hnd. apply NoDup_Permutation.
  - apply (NoDup_map_inv (fun o => user_id (user o))).
    apply annotated_query_distinct.
  - apply (NoDup_map_inv (fun o => user_id (user o))).
    rewrite map_map. simpl. apply NoDup_map_filter. exact Hnd.
  - intros o. rewrite (in_annotated_query db p case o Hnd), in_map_iff.
    split.
    + intros [u [Hu [Hp ->]]]. exists u. split; [reflexivity |].
      apply filter_In. auto.
    + intros [u [<- Hu]]. apply filter_In in Hu. exists u. intuition.
Qed.

(** [get_object] for the id of a stored user, with unique keys. *)
Lemma get_object_stored (db : DB) (u : User) :
  well_formed db -> In u (users db) ->
  ORM.result (get_object (mkRequest (user_id u))) db =
  Some (instance_of db u).
Proof.
  intros [Hnd [_ Hna]] Hu. rewrite get_object_result, prefetch_result_eq.
  simpl request_user_id.
  pose proof (first_order_by (fun o => user_id (user o))
                (annotated_query (fun u' => user_id u' =? user_id u)
                                 workload_me db)) as H.
  destruct (limit 1 _) as [| x [| y l]]; [| | destruct H].
  - pose proof (proj1 (annotated_query_nil db _ _) H u Hu) as H'.
    simpl in H'. rewrite Z.eqb_refl in H'. discriminate.
  - apply in_annotated_query in H; [| exact Hnd].
    destruct H as [u' [Hu' [Hp ->]]]. apply Z.eqb_eq in Hp.
    rewrite (NoDup_map_injective user_id (users db) u' u Hnd Hu' Hu Hp).
    simpl. rewrite (with_applications_annotated_row db u Hna). reflexivity.
Qed.

(** Every served instance of a database with unique keys is the
    written-out instance of its user. *)
Lemma served_instance_of (db : DB) (o : AnnotatedUser) :
  well_formed db -> served db o ->
  In (user o) (users db) /\ o = instance_of db (user o).
Proof.
  intros Hwf [H | [request H]].
  - destruct Hwf as [Hnd [_ Hna]].
    rewrite get_queryset_result in H. apply in_map_iff in H.
    destruct H as [o' [<- Ho']].
    apply in_annotated_query in Ho'; [| exact Hnd].
    destruct Ho' as [u [Hu [_ ->]]]. rewrite annotated_row_sites.
    rewrite (with_applications_annotated_row db u Hna).
    split; [exact Hu | reflexivity].
  - destruct (get_object_user request db o H) as [Hu Hid].
    split; [exact Hu |].
    pose proof (get_object_stored db (user o) Hwf Hu) as E.
    destruct request as [rid]. simpl in Hid. rewrite Hid in E.
    rewrite H in E. injection E as E. exact E.
Qed.

Lemma get_queryset_permutation (db : DB) :
  well_formed db ->
  Permutation (ORM.result get_queryset db) (map (instance_of db) (users db)).
Proof.
  intros [Hnd [_ Hna]]. rewrite get_queryset_result.
  pose proof (annotated_query_permutation (fun _ => true) workload_list db Hnd)
    as P.
  rewrite filter_true in P.
  apply (Permutation_map (with_applications db)) in P.
  rewrite map_map in P.
  rewrite (map_ext _ (instance_of db)) in P; [exact P |].
  intros u. rewrite annotated_row_sites.
  apply with_applications_annotated_row. exact Hna.
Qed.

Lemma served_with_applications (db : DB) (o : AnnotatedUser) :
  served db o -> exists o', o = with_applications db o'.
Proof.
  intros [H | [request H]].
  - rewrite get_queryset_result in H. apply in_map_iff in H.
    destruct H as [o' [E _]]. exists o'. symmetry. exact E.
  - rewrite get_object_result, prefetch_result_eq in H.
    destruct (limit 1 _) as [| x l]; simpl in H; [discriminate |].
    injection H as H. exists x. symmetry. exact H.
Qed.

(** Without any assumption on the keys, every stored user selected by
    [WHERE] has a row in the annotated query. *)
Lemma annotated_query_covers (p : User -> bool) (case : Z -> option string)
      (db : DB) (u : User) :
  In u (users db) -> p u = true ->
  exists o, In o (annotated_query p case db) /\
            user_id (user o) = user_id u.
Proof.
  intros Hu Hp. unfold annotated_query. fold pk.
  rewrite joined_flat_map, where_rows.
  set (rows := flat_map (rows_of db) (filter p (users db))).
  assert (Hk : In (user_id u) (map pk rows)).
  { apply in_keys. exists u. split; [apply filter_In; auto | reflexivity]. }
  pose proof Hk as Hk'. apply in_map_iff in Hk'. destruct Hk' as [r [Er Hr]].
  assert (Hrg : In r (filter (fun r => pk r =? user_id u) rows))
    by (apply filter_In; split; [exact Hr | apply Z.eqb_eq; exact Er]).
  assert (Hg : In (filter (fun r => pk r =? user_id u) rows)
                  (group_by pk rows))
    by (apply in_group_by; exists (user_id u); auto).
  destruct (filter (fun r => pk r =? user_id u) rows) as [| r0 g] eqn:Eg;
    [destruct Hrg |].
  assert (H0 : In r0 (filter (fun r => pk r =? user_id u) rows))
    by (rewrite Eg; left; reflexivity).
  apply filter_In in H0. destruct H0 as [_ H0]. apply Z.eqb_eq in H0.
  eexists. split.
  - apply in_flat_map. exists (r0 :: g). split; [exact Hg |].
    simpl. left. reflexivity.
  - simpl. exact H0.
Qed.

Lemma workload_me_very_easy (n : Z) :
  workload_me n = Some "VERY_EASY" <-> n <= 0.
Proof.
  destruct (workload_me_cases n) as [[R H] | [[R H] | [[R H] | [R H]]]];
    rewrite H; split; intros H'; try lia; try reflexivity; discriminate.
Qed.

Lemma workload_me_monotone (n m : Z) :
  n <= m -> tier_rank (workload_me n) <= tier_rank (workload_me m).
Proof.
  intros Hnm.
  destruct (workload_me_cases n) as [[Rn Hn] | [[Rn Hn] | [[Rn Hn] | [Rn Hn]]]];
    destruct (workload_me_cases m)
      as [[Rm Hm] | [[Rm Hm] | [[Rm Hm] | [Rm Hm]]]];
    rewrite Hn, Hm; simpl; lia.
Qed.

(** ** Further properties of the views *)

(** X1. On a database with unique keys, [get_object] for the id of a
    stored user returns that user's instance: its stored record, its
    profile, its own applications, the count of its vps records taken
    once per application, the tier of that count and the number of its
    applications. *)
Theorem get_object_of_stored_user
        (db : DB) (u : User) (Hwf : well_formed db) (Hu : In u (users db)) :
  ORM.result (get_object (mkRequest (user_id u))) db =
  Some (instance_of db u).
Proof. exact (get_object_stored db u Hwf Hu). Qed.

Lemma get_object_of_stored_user_sample :
  well_formed db_sample /\ In bob (users db_sample) /\
  ORM.result (get_object (mkRequest 2)) db_sample =
  Some (mkAnnotatedUser bob (Some (mkProfile 2 2)) [] 4 (Some "MEDIUM") 0).
Proof.
  assert (Hu : In bob (users db_sample)) by (right; left; reflexivity).
  split; [exact well_formed_db_sample |]. split; [exact Hu |].
  exact (get_object_of_stored_user db_sample bob well_formed_db_sample Hu).
Defined.

(** X2. On a database with unique keys, the evaluated [get_queryset]
    holds the instance of every stored user exactly once, users without
    any vps or application included; the order is left open. *)
Theorem get_queryset_lists_every_user (db : DB) (Hwf : well_formed db) :
  Permutation (ORM.result get_queryset db) (map (instance_of db) (users db)).
Proof. exact (get_queryset_permutation db Hwf). Qed.

Lemma get_queryset_lists_every_user_sample :
  well_formed db_sample /\
  Permutation (ORM.result get_queryset db_sample)
              [instance_of db_sample alice; instance_of db_sample bob].
Proof.
  split; [exact well_formed_db_sample |].
  exact (get_queryset_lists_every_user db_sample well_formed_db_sample).
Defined.

(** X3. On a database with unique keys, the [vps_count] of a served
    instance is the number of its user's vps records multiplied by the
    number of the user's applications (by one when there is none): it is
    never below the number of vps records, and equal to it, with the
    tier computed from it, when the user has at most one application. *)
Theorem vps_count_counts_per_application
        (db : DB) (o : AnnotatedUser)
        (Hwf : well_formed db) (Ho : served db o) :
  vps_count o =
  Z.of_nat (length (vps_of db (user o)) *
            Nat.max 1 (length (applications_of db (user o)))) /\
  Z.of_nat (length (vps_of db (user o))) <= vps_count o /\
  ((length (applications_of db (user o)) <= 1)%nat ->
   vps_count o = Z.of_nat (length (vps_of db (user o))) /\
   workload o = workload_me (Z.of_nat (length (vps_of db (user o))))).
Proof.
  pose proof (vps_count_join_law db o Hwf Ho) as E.
  destruct (served_fields db o Ho) as [_ [_ [Hw _]]].
  split; [exact E |]. split; [nia |].
  intros Ha.
  assert (E' : vps_count o = Z.of_nat (length (vps_of db (user o))))
    by nia.
  split; [exact E' |]. rewrite Hw, E'. reflexivity.
Qed.

Lemma vps_count_counts_per_application_sample :
  exists o, served db_sample o /\ user o = bob /\
            (length (applications_of db_sample bob) <= 1)%nat /\
            vps_count o = Z.of_nat (length (vps_of db_sample bob)).
Proof.
  assert (S2 : served db_sample
                 (mkAnnotatedUser bob (Some (mkProfile 2 2)) []
                    4 (Some "MEDIUM") 0))
    by (right; exists (mkRequest 2); reflexivity).
  assert (Ha : (length (applications_of db_sample bob) <= 1)%nat)
    by (simpl; lia).
  eexists. split; [exact S2 |]. split; [reflexivity |]. split; [exact Ha |].
  destruct (vps_count_counts_per_application
              db_sample _ well_formed_db_sample S2) as [_ [_ H]].
  exact (proj1 (H Ha)).
Defined.

(** X4. The prefetched [application_set] of a served instance is the
    list of the application records of its user, and of no other user;
    with unique keys [applications_deployed] is its length. *)
Theorem application_set_of_served (db : DB) (o : AnnotatedUser)
        (Ho : served db o) :
  application_set o = applications_of db (user o) /\
  (forall a, In a (application_set o) <->
             In a (applications db) /\
             application_user_id a = user_id (user o)) /\
  (well_formed db ->
   applications_deployed o = Z.of_nat (length (application_set o))).
Proof.
  assert (E : application_set o = applications_of db (user o)).
  { destruct (served_with_applications db o Ho) as [o' ->]. reflexivity. }
  split; [exact E |]. split.
  - intros a. rewrite E. unfold applications_of. rewrite filter_In, Z.eqb_eq.
    reflexivity.
  - intros Hwf. destruct (served_instance_of db o Hwf Ho) as [_ Eo].
    rewrite Eo. reflexivity.
Qed.

Lemma application_set_of_served_sample :
  exists o, served db_sample o /\ user o = alice /\
            application_set o = [mkApplication 20 1; mkApplication 21 1] /\
            applications_deployed o = 2.
Proof.
  assert (S1 : served db_sample
                 (mkAnnotatedUser alice (Some (mkProfile 1 1))
                    [mkApplication 20 1; mkApplication 21 1]
                    4 (Some "MEDIUM") 2))
    by (right; exists (mkRequest 1); reflexivity).
  eexists. split; [exact S1 |]. split; [reflexivity |].
  destruct (application_set_of_served db_sample _ S1) as [E [_ H]].
  split; [exact E | exact (H well_formed_db_sample)].
Defined.

(** X5. With unique keys the two read paths agree: [get_object] returns
    an instance exactly when the evaluated [get_queryset] holds it and
    its user has the requesting user's id. *)
Theorem get_object_agrees_with_get_queryset
        (db : DB) (request : Request) (o : AnnotatedUser)
        (Hwf : well_formed db) :
  ORM.result (get_object request) db = Some o <->
  In o (ORM.result get_queryset db) /\
  user_id (user o) = request_user_id request.
Proof.
  split.
  - intros H.
    assert (Hs : served db o) by (right; exists request; exact H).
    destruct (served_instance_of db o Hwf Hs) as [Hu Eo].
    destruct (get_object_user request db o H) as [_ Hid].
    split; [| exact Hid].
    apply (Permutation_in _ (Permutation_sym (get_queryset_permutation db Hwf))).
    rewrite Eo. apply in_map. exact Hu.
  - intros [H Hid].
    assert (Hs : served db o) by (left; exact H).
    destruct (served_instance_of db o Hwf Hs) as [Hu Eo].
    pose proof (get_object_stored db (user o) Hwf Hu) as E.
    destruct request as [rid]. simpl in Hid. rewrite Hid in E.
    rewrite E. f_equal. symmetry. exact Eo.
Qed.

Lemma get_object_agrees_with_get_queryset_sample :
  well_formed db_sample /\
  exists o, ORM.result (get_object (mkRequest 2)) db_sample = Some o /\
            In o (ORM.result get_queryset db_sample).
Proof.
  split; [exact well_formed_db_sample |].
  eexists. split; [reflexivity |].
  refine (proj1 (proj1 (get_object_agrees_with_get_queryset
                          db_sample (mkRequest 2) _ well_formed_db_sample)
                       _)).
  reflexivity.
Defined.

(** X6. The overlap of the first two whens at 3 never reaches the
    second: with the second range starting at 4 the expression is the
    same on every integer; read in the other order the two whens give a
    different label at 3, MEDIUM, and only there. *)
Theorem workload_overlap_decided_by_order (n : Z) :
  workload_disjoint n = workload_me n /\
  (workload_swapped n = workload_me n <-> n <> 3) /\
  workload_swapped 3 = Some "MEDIUM".
Proof.
  assert (D : workload_disjoint n =
              if (1 <=? n) && (n <=? 3) then Some "EASY"
              else if (4 <=? n) && (n <=? 8) then Some "MEDIUM"
              else if 9 <=? n then Some "HARD"
              else Some "VERY_EASY") by reflexivity.
  assert (S : workload_swapped n =
              if (3 <=? n) && (n <=? 8) then Some "MEDIUM"
              else if (1 <=? n) && (n <=? 3) then Some "EASY"
              else if 9 <=? n then Some "HARD"
              else Some "VERY_EASY") by reflexivity.
  split; [| split; [| reflexivity]].
  - rewrite D, workload_me_unfold. leb_cases.
  - destruct (Z.eq_dec n 3) as [-> | Hn].
    + split; [intros H; discriminate H | intros H; contradiction].
    + split; [intros _; exact Hn |]. intros _.
      rewrite S, workload_me_unfold. leb_cases.
Qed.

(** X7. The tier never goes down when the count goes up. *)
Theorem workload_monotone (n m : Z) (Hnm : n <= m) :
  tier_rank (workload_me n) <= tier_rank (workload_me m) /\
  tier_rank (workload_list n) <= tier_rank (workload_list m).
Proof.
  pose proof (workload_me_monotone n m Hnm) as H.
  split; [exact H |].
  rewrite !workload_list_unfold, <- !workload_me_unfold. exact H.
Qed.

Lemma workload_monotone_3_4 :
  3 <= 4 /\
  tier_rank (workload_me 3) = 1 /\ tier_rank (workload_me 4) = 2 /\
  tier_rank (workload_me 3) <= tier_rank (workload_me 4).
Proof.
  assert (H : 3 <= 4) by lia.
  split; [exact H |]. split; [reflexivity |]. split; [reflexivity |].
  exact (proj1 (workload_monotone 3 4 H)).
Defined.

(** X8. On a database with unique keys, the tier a served instance
    reports is never lighter than the tier of its user's real number of
    vps records; it is VERY_EASY exactly when the user has no vps
    record, and HARD whenever the user has nine or more. *)
Theorem workload_against_real_count
        (db : DB) (o : AnnotatedUser)
        (Hwf : well_formed db) (Ho : served db o) :
  tier_rank (workload_me (Z.of_nat (length (vps_of db (user o)))))
  <= tier_rank (workload o) /\
  (workload o = Some "VERY_EASY" <-> vps_of db (user o) = []) /\
  (9 <= Z.of_nat (length (vps_of db (user o))) ->
   workload o = Some "HARD").
Proof.
  pose proof (vps_count_join_law db o Hwf Ho) as E.
  destruct (served_fields db o Ho) as [_ [_ [Hw _]]].
  assert (Hle : Z.of_nat (length (vps_of db (user o))) <= vps_count o)
    by nia.
  rewrite Hw. split; [apply workload_me_monotone; exact Hle |]. split.
  - rewrite workload_me_very_easy. split.
    + intros H0. destruct (vps_of db (user o)); [reflexivity |].
      simpl length in Hle. lia.
    + intros H0. rewrite H0 in E. simpl in E. lia.
  - intros H9.
    destruct (workload_me_cases (vps_count o))
      as [[R H] | [[R H] | [[R H] | [R H]]]]; try lia. exact H.
Qed.

Lemma workload_against_real_count_sample :
  exists o, served db_sample o /\ user o = alice /\
            length (vps_of db_sample alice) = 2%nat /\
            workload_me 2 = Some "EASY" /\
            workload o = Some "MEDIUM" /\
            tier_rank (workload_me 2) <= tier_rank (workload o).
Proof.
  assert (S1 : served db_sample
                 (mkAnnotatedUser alice (Some (mkProfile 1 1))
                    [mkApplication 20 1; mkApplication 21 1]
                    4 (Some "MEDIUM") 2))
    by (right; exists (mkRequest 1); reflexivity).
  eexists. split; [exact S1 |].
  split; [reflexivity |]. split; [reflexivity |].
  split; [reflexivity |]. split; [reflexivity |].
  exact (proj1 (workload_against_real_count
                  db_sample _ well_formed_db_sample S1)).
Defined.

(** X9. Whatever the tables hold, the evaluated [get_queryset] has at
    most one instance per user id, every instance is that of a stored
    user, and no stored user is left out: a user without any vps or
    application still has an instance. *)
Theorem get_queryset_covers_stored_users
        (db : DB) (u : User) (Hu : In u (users db)) :
  NoDup (map (fun o => user_id (user o)) (ORM.result get_queryset db)) /\
  (forall o, In o (ORM.result get_queryset db) -> In (user o) (users db)) /\
  exists o, In o (ORM.result get_queryset db) /\
            user_id (user o) = user_id u.
Proof.
  rewrite get_queryset_result. split; [| split].
  - rewrite map_map. simpl.
    apply (annotated_query_distinct (fun _ => true) workload_list db).
  - intros o Ho. apply in_map_iff in Ho. destruct Ho as [o' [<- Ho']].
    apply annotated_query_fields in Ho'. simpl. tauto.
  - destruct (annotated_query_covers (fun _ => true) workload_list db u
                                     Hu eq_refl) as [o' [Ho' Hid]].
    exists (with_applications db o'). split; [| exact Hid].
    apply in_map. exact Ho'.
Qed.

Lemma get_queryset_covers_stored_users_sample :
  In bob (users db_sample) /\
  exists o, In o (ORM.result get_queryset db_sample) /\
            user_id (user o) = 2.
Proof.
  assert (Hu : In bob (users db_sample)) by (right; left; reflexivity).
  split; [exact Hu |].
  exact (proj2 (proj2 (get_queryset_covers_stored_users db_sample bob Hu))).
Defined.

(** X10. On a database with unique keys, the [vps_count] of a served
    instance is the number of its user's vps records exactly when the
    user has no vps record or at most one application. *)
Theorem vps_count_exact_iff
        (db : DB) (o : AnnotatedUser)
        (Hwf : well_formed db) (Ho : served db o) :
  vps_count o = Z.of_nat (length (vps_of db (user o))) <->
  (length (vps_of db (user o)) = 0 \/
   length (applications_of db (user o)) <= 1)%nat.
Proof.
  pose proof (vps_count_join_law db o Hwf Ho) as E. rewrite E.
  destruct (length (vps_of db (user o))) as [| v];
    destruct (length (applications_of db (user o))) as [| [| a]];
    simpl Nat.max; split; intros H; try lia; try (left; reflexivity);
    try (right; lia); try (exfalso; nia).
Qed.

Lemma vps_count_exact_iff_sample :
  exists o, served db_sample o /\ user o = alice /\
            length (vps_of db_sample alice) = 2%nat /\
            length (applications_of db_sample alice) = 2%nat /\
            vps_count o <> 2.
Proof.
  assert (S1 : served db_sample
                 (mkAnnotatedUser alice (Some (mkProfile 1 1))
                    [mkApplication 20 1; mkApplication 21 1]
                    4 (Some "MEDIUM") 2))
    by (right; exists (mkRequest 1); reflexivity).
  eexists. split; [exact S1 |].
  split; [reflexivity |]. split; [reflexivity |]. split; [reflexivity |].
  intros H.
  destruct (proj1 (vps_count_exact_iff db_sample _ well_formed_db_sample S1) H)
    as [H0 | H1]; [discriminate H0 | simpl in H1; lia].
Defined.

(** ** The deployed applications of every user *)

(** C5. With unique primary keys, for every stored user both read paths
    hand out the user's instance, and its [applications_deployed] is the
    number of application records of that user, each counted once
    (whatever the number of the user's vps records); the same holds of
    every instance served. *)
Theorem applications_deployed_counts_applications
        (db : DB) (u : User)
        (Hwf : well_formed db) (Hu : In u (users db)) :
  (exists o, ORM.result (get_object (mkRequest (user_id u))) db = Some o /\
             user o = u /\
             applications_deployed o =
             Z.of_nat (length (applications_of db u))) /\
  (exists o, In o (ORM.result get_queryset db) /\
             user o = u /\
             applications_deployed o =
             Z.of_nat (length (applications_of db u))) /\
  length (applications_of db u) =
  length (nodup Z.eq_dec (map application_id (applications_of db u))) /\
  (forall o, served db o ->
             applications_deployed o =
             Z.of_nat (length (applications_of db (user o))) /\
             applications_deployed o =
             Z.of_nat (length (nodup Z.eq_dec
                                 (map application_id
                                      (applications_of db (user o)))))).
Proof.
  assert (N : forall u', length (applications_of db u') =
                         length (nodup Z.eq_dec
                                   (map application_id
                                        (applications_of db u')))).
  { intros u'. destruct Hwf as [_ [_ Hnd]].
    rewrite nodup_fixed_point, length_map; [reflexivity |].
    unfold applications_of. apply NoDup_map_filter. exact Hnd. }
  split; [| split; [| split]].
  - exists (instance_of db u). split; [| split; reflexivity].
    apply get_object_stored; assumption.
  - exists (instance_of db u). split; [| split; reflexivity].
    apply (Permutation_in _ (Permutation_sym (get_queryset_permutation db Hwf))).
    apply in_map. exact Hu.
  - apply N.
  - intros o Ho. destruct (served_instance_of db o Hwf Ho) as [_ Eo].
    assert (E : applications_deployed o =
                Z.of_nat (length (applications_of db (user o))))
      by (rewrite Eo; reflexivity).
    split; [exact E |]. rewrite E, <- N. reflexivity.
Qed.

Lemma applications_deployed_sample :
  well_formed db_sample /\ In alice (users db_sample) /\
  length (vps_of db_sample alice) = 2%nat /\
  length (applications_of db_sample alice) = 2%nat /\
  (exists o, ORM.result (get_object (mkRequest 1)) db_sample = Some o /\
             user o = alice /\ applications_deployed o = 2) /\
  (exists o, In o (ORM.result get_queryset db_sample) /\
             user o = alice /\ applications_deployed o = 2).
Proof.
  assert (Hu : In alice (users db_sample)) by (left; reflexivity).
  split; [exact well_formed_db_sample |]. split; [exact Hu |].
  split; [reflexivity |]. split; [reflexivity |].
  destruct (applications_deployed_counts_applications
              db_sample alice well_formed_db_sample Hu)
    as [H1 [H2 _]].
  split; [exact H1 | exact H2].
Defined.
